(** * tether-name-mcp-server: the tool dispatch shell of [src/index.ts]

    A shallow embedding of [createServer]: the environment lookup and the
    configuration check of [getClient], the five tool callbacks with their
    [try]/[catch] envelopes, and the tool table that [registerTool] builds.

    The wrapped SDK ([TetherClient] of the [tether-name] package), the
    [McpServer] class and [zod] are external collaborators.  The SDK is a
    parameter of the development; of the other two only what the callbacks
    and the tool listing rely on is modelled, and each such model says so. *)

From Stdlib Require Import Ascii String.
From stdpp Require Import base option list strings gmap.

Local Open Scope string_scope.
Set Warnings "-register-all".

(** ** Strings *)

Module Str.

(** Characters that a string literal cannot hold directly. *)
Definition dquote : ascii := "034"%char.
Definition newline : ascii := "010"%char.

Definition dq : string := String dquote EmptyString.
Definition nl : string := String newline EmptyString.

(** [quoted s] is [s] between two double quotes, with no escaping. *)
Definition quoted (s : string) : string := dq ++ s ++ dq.

(** [String.prototype.includes]: [needle] occurs in [hay] as a contiguous
    run of characters. *)
Fixpoint includes (hay needle : string) : bool :=
  String.prefix needle hay
  || match hay with
     | EmptyString => false
     | String _ rest => includes rest needle
     end.

(** The relational reading of [includes]. *)
Definition occurs_in (needle hay : string) : Prop :=
  exists before after, hay = before ++ needle ++ after.

(** [sep.join(parts)]. *)
Fixpoint join (sep : string) (parts : list string) : string :=
  match parts with
  | [] => ""
  | [p] => p
  | p :: ps => p ++ sep ++ join sep ps
  end.

End Str.

(** ** JSON values and [JSON.stringify(value, null, 2)]

    A number is kept as the text that [JSON.stringify] writes for it (the
    shortest decimal form of the double, with an exponent where JavaScript
    uses one); [NaN] and the infinities, which it writes as [null], are
    [JNull] here. *)

Inductive json : Type :=
| JNull
| JBool (b : bool)
| JNumber (literal : string)
| JString (s : string)
| JArray (items : list json)
| JObject (fields : list (string * json)).

Module Json.

Definition hex_digit (n : N) : ascii :=
  match n with
  | 0 => "0" | 1 => "1" | 2 => "2" | 3 => "3" | 4 => "4" | 5 => "5"
  | 6 => "6" | 7 => "7" | 8 => "8" | 9 => "9" | 10 => "a" | 11 => "b"
  | 12 => "c" | 13 => "d" | 14 => "e" | _ => "f"
  end%N%char.

(** The escape that [JSON.stringify] writes for one character: the double
    quote, the backslash and the control characters below U+0020 are
    escaped, everything else is copied. *)
Definition escape_char (c : ascii) : string :=
  let n := N_of_ascii c in
  if (n =? 34)%N then String "\" Str.dq
  else if (n =? 92)%N then "\\"
  else if (n =? 8)%N then "\b"
  else if (n =? 9)%N then "\t"
  else if (n =? 10)%N then "\n"
  else if (n =? 12)%N then "\f"
  else if (n =? 13)%N then "\r"
  else if (n <? 32)%N then
    "\u00" ++ String (hex_digit (n / 16)) (String (hex_digit (n mod 16)) "")
  else String c "".

Fixpoint escape (s : string) : string :=
  match s with
  | EmptyString => ""
  | String c rest => escape_char c ++ escape rest
  end.

Definition quote (s : string) : string := Str.quoted (escape s).

(** [stringify_at indent v] is [JSON.stringify(v, null, 2)] for a value
    that sits at indentation [indent]: members of a non-empty array or
    object go on lines of their own, two spaces further in. *)
Fixpoint stringify_at (indent : string) (v : json) : string :=
  let inner := indent ++ "  " in
  match v with
  | JNull => "null"
  | JBool true => "true"
  | JBool false => "false"
  | JNumber literal => literal
  | JString s => quote s
  | JArray [] => "[]"
  | JArray items =>
      "[" ++ Str.nl ++ inner
      ++ Str.join ("," ++ Str.nl ++ inner) (map (stringify_at inner) items)
      ++ Str.nl ++ indent ++ "]"
  | JObject [] => "{}"
  | JObject fields =>
      "{" ++ Str.nl ++ inner
      ++ Str.join ("," ++ Str.nl ++ inner)
           (map (fun kv => quote (fst kv) ++ ": " ++ stringify_at inner (snd kv))
                fields)
      ++ Str.nl ++ indent ++ "}"
  end.

Definition stringify (v : json) : string := stringify_at "" v.

(** Property access on a parsed body: [obj.key], [None] for [undefined]. *)
Definition field (key : string) (v : json) : option json :=
  match v with
  | JObject fields => snd <$> List.find (fun kv => String.eqb (fst kv) key) fields
  | _ => None
  end.

End Json.

(** ** The JavaScript runtime: thrown values, effects, [process.env] *)

(** A thrown value, as a [catch] block that turns it into text sees it:
    an instance of [Error] whose [message] goes into a template literal as
    the string [message]; some other value for which [String(value)] gives
    [rendering]; or a value for which that conversion itself throws
    [raised] (a value that is not an [Error] and has no usable [toString],
    or an [Error] whose [message] is a symbol or such a value). *)
Inductive thrown : Type :=
| ErrorObject (message : string)
| OtherValue (rendering : string)
| Inconvertible (raised : thrown).

Inductive outcome (A : Type) : Type :=
| Returned (a : A)
| Thrown (e : thrown).
Arguments Returned {A} a.
Arguments Thrown {A} e.

(** What a call leaves behind.  [Invoke] is recorded at a call site of the
    shell; [Inside] is recorded by the SDK for its own steps. *)
Inductive sdk_call : Type :=
| Construct (credentialId privateKeyPath : string)
| CallVerify
| CallRequestChallenge
| CallSign (challenge : string)
| CallSubmitProof (challenge proof : string).

Inductive sdk_step : Type :=
| FetchChallenge
| ReadKeyFile (path : string)
| ComputeSignature (challenge : string)
| PostProof (challenge proof : string).

Inductive event : Type :=
| Invoke (c : sdk_call)
| Inside (s : sdk_step).

(** A computation reads the ambient [process.env], returns or throws, and
    leaves a trace of events.  [await] of a rejected promise is a throw. *)
Definition M (A : Type) : Type := gmap string string -> outcome A * list event.

Definition run {A} (m : M A) (env : gmap string string) : outcome A * list event :=
  m env.
Definition result {A} (m : M A) (env : gmap string string) : outcome A :=
  fst (run m env).

Definition ret {A} (a : A) : M A := fun _ => (Returned a, []).
Definition throw {A} (e : thrown) : M A := fun _ => (Thrown e, []).
Definition bind {A B} (m : M A) (k : A -> M B) : M B :=
  fun env =>
    match m env with
    | (Returned a, t) => let (r, t') := k a env in (r, (t ++ t')%list)
    | (Thrown e, t) => (Thrown e, t)
    end.

(** [try { body } catch (error) { handler }]. *)
Definition try_catch {A} (body : M A) (handler : thrown -> M A) : M A :=
  fun env =>
    match body env with
    | (Returned a, t) => (Returned a, t)
    | (Thrown e, t) => let (r, t') := handler e env in (r, (t ++ t')%list)
    end.

(** A call into the SDK made by the shell, recorded before it runs. *)
Definition invoke {A} (c : sdk_call) (m : M A) : M A :=
  fun env => let (r, t) := m env in (r, Invoke c :: t).

(** [process.env[name]]: [None] is [undefined]. *)
Definition getenv (name : string) : M (option string) :=
  fun env => (Returned (env !! name), []).

#[global] Instance M_ret : MRet M := @ret.
#[global] Instance M_bind : MBind M := fun A B k m => bind m k.

(** Truthiness of a [string | undefined]: [undefined] and the empty string
    are falsy. *)
Definition truthy (v : option string) : bool :=
  match v with
  | Some (String _ _) => true
  | _ => false
  end.

(** What is left of [v] after [if (!v) throw ...]: a non-empty string. *)
Definition narrowed (v : option string) : option string :=
  if truthy v then v else None.

(** [v || fallback] with a string [fallback]. *)
Definition or_else (v : option string) (fallback : string) : string :=
  match v with
  | Some (String _ _ as s) => s
  | _ => fallback
  end.

(** [a && b] on two [string | undefined]. *)
Definition and_then (a b : option string) : option string :=
  if truthy a then b else a.

(** A result that is already there, as a computation. *)
Definition settled {A} (r : outcome A) : M A := fun _ => (r, []).

(** [error instanceof Error ? error.message : String(error)], and the
    conversion of the result to a string by the template literal that
    takes it: both can throw. *)
Definition message_of (error : thrown) : outcome string :=
  match error with
  | ErrorObject message => Returned message
  | OtherValue rendering => Returned rendering
  | Inconvertible raised => Thrown raised
  end.

(** ** The SDK interface the shell is written against *)

Record TetherClient : Type := {
  verify : M json;
  requestChallenge : M string;
  sign : string -> M string;
  submitProof : string -> string -> M json;
}.

(** ** The response envelope *)

Record content_item : Type := { type : string; text : string }.

Record envelope : Type := {
  content : list content_item;
  isError : option bool;
}.

Definition success (body : string) : envelope :=
  {| content := [ {| type := "text"; text := body |} ]; isError := None |}.

Definition failure (body : string) : envelope :=
  {| content := [ {| type := "text"; text := body |} ]; isError := Some true |}.

(** [content[0].text], as the callers of a tool read it. *)
Definition first_text (e : envelope) : option string :=
  text <$> head (content e).

(** What [getClient] hands to the SDK's constructor. *)
Record TetherClientConfig : Type := {
  credentialId : string;
  privateKeyPath : string;
}.

(** ** [McpServer] and [zod], as far as [createServer] uses them

    Of [zod] the source uses [z.string()] and [.describe(text)]; of
    [McpServer] it uses the constructor and [registerTool].  A callback
    receives the parsed arguments, one string per key of its input schema,
    which is the type TypeScript infers for it. *)

Module Mcp.

Inductive zod : Type :=
| ZString (description : option string).

Definition z_string : zod := ZString None.
Definition describe (text : string) (schema : zod) : zod :=
  match schema with ZString _ => ZString (Some text) end.

Definition shape : Type := list (string * zod).

Fixpoint parsed (s : shape) : Type :=
  match s with
  | [] => unit
  | _ :: rest => (string * parsed rest)%type
  end.

Definition arguments_of (inputSchema : option shape) : Type :=
  match inputSchema with
  | Some s => parsed s
  | None => unit
  end.

Record RegisteredTool : Type := {
  name : string;
  description : option string;
  inputSchema : option shape;
  callback : arguments_of inputSchema -> M envelope;
}.

Record McpServer : Type := {
  server_name : string;
  server_version : string;
  tools : list RegisteredTool;
}.

Definition new_McpServer (name version : string) : McpServer :=
  {| server_name := name; server_version := version; tools := [] |}.

Definition registered (server : McpServer) (tool_name : string) : bool :=
  existsb (fun t => String.eqb (name t) tool_name) (tools server).

(** [server.registerTool(name, config, callback)]: a name that is already
    taken is refused with an [Error]; tools are kept in registration
    order. *)
Definition registerTool (server : McpServer) (tool : RegisteredTool)
  : outcome McpServer :=
  if registered server (name tool)
  then Thrown (ErrorObject ("Tool " ++ name tool ++ " is already registered"))
  else Returned {| server_name := server_name server;
                   server_version := server_version server;
                   tools := (tools server ++ [tool])%list |}.

(** An entry of the answer to [tools/list]. *)
Record ListedTool : Type := {
  listed_name : string;
  listed_description : option string;
  listed_properties : list string;
  listed_required : list string;
}.

(** Every key of a shape of [z.string()] fields is required: none of them
    is [.optional()]. *)
Definition required_keys (s : shape) : list string := map fst s.

Definition list_entry (t : RegisteredTool) : ListedTool :=
  {| listed_name := name t;
     listed_description := description t;
     listed_properties := from_option (map fst) [] (inputSchema t);
     listed_required := from_option required_keys [] (inputSchema t) |}.

Definition listTools (server : McpServer) : list ListedTool :=
  map list_entry (tools server).

(** Validation of the caller's arguments against a shape: every key must
    be present and hold a string; any string is accepted. *)
Definition zod_parse (schema : zod) (v : option json) : option string :=
  match schema, v with
  | ZString _, Some (JString s) => Some s
  | _, _ => None
  end.

Fixpoint parse (s : shape) (arguments : json) : option (parsed s) :=
  match s with
  | [] => Some tt
  | (key, schema) :: rest =>
      match zod_parse schema (Json.field key arguments), parse rest arguments with
      | Some v, Some vs => Some (v, vs)
      | _, _ => None
      end
  end.

Definition parse_arguments (inputSchema : option shape) (arguments : json)
  : option (arguments_of inputSchema) :=
  match inputSchema with
  | Some s => parse s arguments
  | None => Some tt
  end.

Definition find_tool (server : McpServer) (tool_name : string)
  : option RegisteredTool :=
  List.find (fun t => String.eqb (name t) tool_name) (tools server).

(** [tools/call]: [None] when the server answers without running a
    callback (unknown tool, arguments that do not validate). *)
Definition callTool (server : McpServer) (tool_name : string) (arguments : json)
  : option (M envelope) :=
  t ← find_tool server tool_name;
  args ← parse_arguments (inputSchema t) arguments;
  Some (callback t args).

End Mcp.

(** ** [createServer] *)

Section Shell.

(** [new TetherClient(config)] of the wrapped SDK. *)
Variable new_TetherClient : TetherClientConfig -> M TetherClient.

Definition getClient : M TetherClient :=
  credentialId ← getenv "TETHER_CREDENTIAL_ID";
  privateKeyPath ← getenv "TETHER_PRIVATE_KEY_PATH";
  match narrowed credentialId with
  | None =>
      throw (ErrorObject "TETHER_CREDENTIAL_ID environment variable is required")
  | Some credentialId =>
      match narrowed privateKeyPath with
      | None =>
          throw (ErrorObject
                   "TETHER_PRIVATE_KEY_PATH environment variable is required")
      | Some privateKeyPath =>
          invoke (Construct credentialId privateKeyPath)
            (new_TetherClient {| credentialId := credentialId;
                                 privateKeyPath := privateKeyPath |})
      end
  end.

(** The [try] blocks of the four delegating callbacks. *)
Definition verify_identity_try : M envelope :=
  client ← getClient;
  result ← invoke CallVerify (verify client);
  mret (success (Json.stringify result)).

Definition request_challenge_try : M envelope :=
  client ← getClient;
  challenge ← invoke CallRequestChallenge (requestChallenge client);
  mret (success (Json.stringify (JObject [("challenge", JString challenge)]))).

Definition sign_challenge_try (challenge : string) : M envelope :=
  client ← getClient;
  proof ← invoke (CallSign challenge) (sign client challenge);
  mret (success (Json.stringify (JObject [("proof", JString proof)]))).

Definition submit_proof_try (challenge proof : string) : M envelope :=
  client ← getClient;
  result ← invoke (CallSubmitProof challenge proof)
             (submitProof client challenge proof);
  mret (success (Json.stringify result)).

(** The [catch] block, which differs between the callbacks by its prefix.
    It is not itself inside a [try]: when the conversion of the thrown
    value throws, the callback rejects. *)
Definition catch_with (prefix : string) (error : thrown) : M envelope :=
  message ← settled (message_of error);
  mret (failure (prefix ++ message)).

Definition verify_identity : M envelope :=
  try_catch verify_identity_try (catch_with "Verification failed: ").

Definition request_challenge : M envelope :=
  try_catch request_challenge_try (catch_with "Failed to request challenge: ").

Definition sign_challenge (challenge : string) : M envelope :=
  try_catch (sign_challenge_try challenge)
    (catch_with "Failed to sign challenge: ").

Definition submit_proof (challenge proof : string) : M envelope :=
  try_catch (submit_proof_try challenge proof)
    (catch_with "Failed to submit proof: ").

(** The object that [get_credential_info] serialises. *)
Definition credential_info (credentialId privateKeyPath : option string) : json :=
  JObject
    [ ("credentialId", JString (or_else credentialId "(not set)"));
      ("privateKeyPath", JString (or_else privateKeyPath "(not set)"));
      ("configured", JBool (truthy (and_then credentialId privateKeyPath))) ].

Definition get_credential_info : M envelope :=
  credentialId ← getenv "TETHER_CREDENTIAL_ID";
  privateKeyPath ← getenv "TETHER_PRIVATE_KEY_PATH";
  mret (success (Json.stringify (credential_info credentialId privateKeyPath))).

Definition verify_identity_tool : Mcp.RegisteredTool :=
  {| Mcp.name := "verify_identity";
     Mcp.description := Some "Perform complete identity verification in one call. Requests a challenge, signs it with the configured private key, and submits the proof to tether.name for verification.";
     Mcp.inputSchema := None;
     Mcp.callback := fun _ => verify_identity |}.

Definition request_challenge_tool : Mcp.RegisteredTool :=
  {| Mcp.name := "request_challenge";
     Mcp.description := Some "Request a new challenge string from the tether.name API. This challenge must be signed and submitted back for verification.";
     Mcp.inputSchema := None;
     Mcp.callback := fun _ => request_challenge |}.

Definition sign_challenge_tool : Mcp.RegisteredTool :=
  {| Mcp.name := "sign_challenge";
     Mcp.description := Some "Sign a challenge string using the configured RSA private key. Returns a URL-safe base64 encoded signature.";
     Mcp.inputSchema :=
       Some [ ("challenge",
               Mcp.describe "The challenge string to sign" Mcp.z_string) ];
     Mcp.callback := fun '(challenge, _) => sign_challenge challenge |}.

Definition submit_proof_tool : Mcp.RegisteredTool :=
  {| Mcp.name := "submit_proof";
     Mcp.description := Some "Submit a signed proof for a challenge to the tether.name API for verification.";
     Mcp.inputSchema :=
       Some [ ("challenge",
               Mcp.describe "The original challenge string from request_challenge"
                 Mcp.z_string);
              ("proof",
               Mcp.describe "The signed proof from sign_challenge" Mcp.z_string) ];
     Mcp.callback := fun '(challenge, (proof, _)) => submit_proof challenge proof |}.

Definition get_credential_info_tool : Mcp.RegisteredTool :=
  {| Mcp.name := "get_credential_info";
     Mcp.description := Some "Get information about the currently configured tether.name credential. Returns the credential ID and key path.";
     Mcp.inputSchema := None;
     Mcp.callback := fun _ => get_credential_info |}.

(** Sequencing of the [registerTool] statements: a throw ends the body. *)
Definition and_register (tool : Mcp.RegisteredTool) (server : outcome Mcp.McpServer)
  : outcome Mcp.McpServer :=
  match server with
  | Returned s => Mcp.registerTool s tool
  | Thrown e => Thrown e
  end.

Definition createServer : outcome Mcp.McpServer :=
  let server := Mcp.new_McpServer "tether-name-mcp-server" "1.0.2" in
  and_register get_credential_info_tool
    (and_register submit_proof_tool
       (and_register sign_challenge_tool
          (and_register request_challenge_tool
             (and_register verify_identity_tool (Returned server))))).

End Shell.

(** ** The four delegating operations, as one family *)

Inductive delegating : Type :=
| VerifyIdentity
| RequestChallenge
| SignChallenge (challenge : string)
| SubmitProof (challenge proof : string).

Section Delegation.

Variable new_TetherClient : TetherClientConfig -> M TetherClient.

Definition attempt (op : delegating) : M envelope :=
  match op with
  | VerifyIdentity => verify_identity_try new_TetherClient
  | RequestChallenge => request_challenge_try new_TetherClient
  | SignChallenge challenge => sign_challenge_try new_TetherClient challenge
  | SubmitProof challenge proof => submit_proof_try new_TetherClient challenge proof
  end.

Definition prefix_of (op : delegating) : string :=
  match op with
  | VerifyIdentity => "Verification failed: "
  | RequestChallenge => "Failed to request challenge: "
  | SignChallenge _ => "Failed to sign challenge: "
  | SubmitProof _ _ => "Failed to submit proof: "
  end.

Definition handle (op : delegating) : M envelope :=
  match op with
  | VerifyIdentity => verify_identity new_TetherClient
  | RequestChallenge => request_challenge new_TetherClient
  | SignChallenge challenge => sign_challenge new_TetherClient challenge
  | SubmitProof challenge proof => submit_proof new_TetherClient challenge proof
  end.

End Delegation.

Definition missing_credential_id : string :=
  "TETHER_CREDENTIAL_ID environment variable is required".
Definition missing_private_key_path : string :=
  "TETHER_PRIVATE_KEY_PATH environment variable is required".

(** ** Stand-ins for the SDK, used to run the shell on concrete inputs *)

Module Stub.

(** Every call succeeds with a fixed answer. *)
Definition answering : TetherClient :=
  {| verify := ret (JObject [("verified", JBool true)]);
     requestChallenge := ret "challenge-1";
     sign := fun _ => ret "c2lnbmF0dXJl";
     submitProof := fun _ _ => ret (JObject [("verified", JBool true)]) |}.

Definition online (_ : TetherClientConfig) : M TetherClient := ret answering.

(** The constructor itself throws. *)
Definition broken (_ : TetherClientConfig) : M TetherClient :=
  throw (OtherValue "key file not found").

(** The constructor returns a client each of whose calls throws [error]. *)
Definition failing (error : thrown) : TetherClient :=
  {| verify := throw error;
     requestChallenge := throw error;
     sign := fun _ => throw error;
     submitProof := fun _ _ => throw error |}.

Definition offline (error : thrown) (_ : TetherClientConfig) : M TetherClient :=
  ret (failing error).


End Stub.

Definition configured_env : gmap string string :=
  <["TETHER_CREDENTIAL_ID" := "my-cred-id"]>
    (<["TETHER_PRIVATE_KEY_PATH" := "/path/to/key.der"]>
       (<["TETHER_BASE_URL" := "https://custom.api.tether.name"]> ∅)).

(** ** The verification core behind [client.verify()] *)

Module Sdk.

(** Modelled from the spec: the [TetherClient] class of the [tether-name]
    SDK, whose source is not part of this repository's files.  The
    specification describes it as four components (Key Store, Signer,
    Challenge Client, Verification Orchestrator); the definitions below
    follow its contracts: [load(path)], [sign(key, challenge)],
    [requestChallenge(config)], [submitProof(config, challenge, proof)]
    and the sequence of [verify(config)]: request, then sign with the
    loaded key, then submit. *)
Record CredentialConfig : Type := {
  cfg_credentialId : string;
  cfg_privateKeyPath : string;
  cfg_baseUrl : string;
}.

Definition default_baseUrl : string := "https://api.tether.name".

Section Core.

(** The file system, the RSA primitive and the remote service. *)
Variable PrivateKey : Type.
Variable read_key : string -> outcome PrivateKey.
Variable rsa_sign : PrivateKey -> string -> outcome string.
Variable fetch_challenge : CredentialConfig -> outcome string.
Variable post_proof : CredentialConfig -> string -> string -> outcome json.

Definition step {A} (s : sdk_step) (r : outcome A) : M A :=
  fun _ => (r, [Inside s]).

(** Modelled from the spec: Key Store, [load(path) -> PrivateKey]. *)
Definition loadKey (path : string) : M PrivateKey :=
  step (ReadKeyFile path) (read_key path).

(** Modelled from the spec: Signer, [sign(key, challenge) -> string]. *)
Definition signWith (key : PrivateKey) (challenge : string) : M string :=
  step (ComputeSignature challenge) (rsa_sign key challenge).

(** Modelled from the spec: Challenge Client. *)
Definition requestChallenge (config : CredentialConfig) : M string :=
  step FetchChallenge (fetch_challenge config).

Definition submitProof (config : CredentialConfig) (challenge proof : string)
  : M json :=
  step (PostProof challenge proof) (post_proof config challenge proof).

(** Modelled from the spec: Verification Orchestrator,
    [challenge = requestChallenge(config)];
    [proof = sign(loadKey(config.privateKeyPath), challenge)];
    [return submitProof(config, challenge, proof)]. *)
Definition verify (config : CredentialConfig) : M json :=
  challenge ← requestChallenge config;
  key ← loadKey (cfg_privateKeyPath config);
  proof ← signWith key challenge;
  submitProof config challenge proof.

Definition sign (config : CredentialConfig) (challenge : string) : M string :=
  key ← loadKey (cfg_privateKeyPath config);
  signWith key challenge.

Definition client (config : CredentialConfig) : TetherClient :=
  Build_TetherClient (verify config) (requestChallenge config)
    (sign config) (submitProof config).

Definition config_of (c : TetherClientConfig) : CredentialConfig :=
  {| cfg_credentialId := credentialId c;
     cfg_privateKeyPath := privateKeyPath c;
     cfg_baseUrl := default_baseUrl |}.

(** Modelled from the spec: a Credential Config is constructed once per
    tool invocation and the key is loaded lazily, so construction does
    nothing else. *)
Definition new_TetherClient (c : TetherClientConfig) : M TetherClient :=
  ret (client (config_of c)).

End Core.



End Sdk.

(** ** Reading the environment and calling the SDK, per operation *)

(** The SDK method that a delegating operation calls, as its call site
    records it. *)
Definition call_of (op : delegating) : sdk_call :=
  match op with
  | VerifyIdentity => CallVerify
  | RequestChallenge => CallRequestChallenge
  | SignChallenge challenge => CallSign challenge
  | SubmitProof challenge proof => CallSubmitProof challenge proof
  end.

(** What a delegating operation asks of its client, and the text it makes
    of the answer: the argument of [JSON.stringify] is the SDK's result
    itself for [verify] and [submitProof], and a one-member object for
    [requestChallenge] and [sign]. *)
Definition answer_of (op : delegating) (client : TetherClient) : M string :=
  match op with
  | VerifyIdentity =>
      result ← verify client;
      mret (Json.stringify result)
  | RequestChallenge =>
      challenge ← requestChallenge client;
      mret (Json.stringify (JObject [("challenge", JString challenge)]))
  | SignChallenge challenge =>
      proof ← sign client challenge;
      mret (Json.stringify (JObject [("proof", JString proof)]))
  | SubmitProof challenge proof =>
      result ← submitProof client challenge proof;
      mret (Json.stringify result)
  end.

(** What a [catch] block with [prefix] makes of [error], thrown after the
    events [t]. *)
Definition caught (prefix : string) (error : thrown) (t : list event)
  : outcome envelope * list event :=
  match message_of error with
  | Returned message => (Returned (failure (prefix ++ message)), t)
  | Thrown raised => (Thrown raised, t)
  end.

(** A computation that does not look at [process.env]. *)
Definition ignores_env {A} (m : M A) : Prop :=
  forall env1 env2, run m env1 = run m env2.

(** An SDK none of whose entry points looks at [process.env]. *)
Definition sdk_ignores_env (sdk : TetherClientConfig -> M TetherClient) : Prop :=
  (forall config, ignores_env (sdk config))
  /\ (forall config env client t,
         run (sdk config) env = (Returned client, t) ->
         ignores_env (verify client)
         /\ ignores_env (requestChallenge client)
         /\ (forall challenge, ignores_env (sign client challenge))
         /\ (forall challenge proof, ignores_env (submitProof client challenge proof))).

(** ** The environment fixture of [test/server.test.ts] *)

Module TestEnv.

(** [overrides] and [merged] are objects used as maps from a variable name
    to a string or [undefined]; a key that holds [undefined] is an entry
    with [None], which is not the same as no entry. *)
Definition defaults : gmap string string :=
  <["TETHER_CREDENTIAL_ID" := "test-credential-id"]>
    (<["TETHER_PRIVATE_KEY_PATH" := "/tmp/test-key.der"]> ∅).

(** [{ ...defaults, ...overrides }]: an entry of [overrides] wins, also
    when it holds [undefined]. *)
Definition merged (overrides : gmap string (option string))
  : gmap string (option string) :=
  overrides ∪ (Some <$> defaults).

(** [if (val === undefined) delete process.env[key];
     else process.env[key] = val]. *)
Definition assign (key : string) (val : option string) (env : gmap string string)
  : gmap string string :=
  match val with
  | None => delete key env
  | Some v => <[key := v]> env
  end.

(** One turn of the loop of [setupEnv], on [saved] and [process.env]. *)
Definition setup_step
    (state : gmap string (option string) * gmap string string)
    (entry : string * option string)
  : gmap string (option string) * gmap string string :=
  let saved := state.1 in
  let env := state.2 in
  let key := entry.1 in
  let val := entry.2 in
  (<[key := env !! key]> saved, assign key val env).

(** [setupEnv(overrides)] run in [env]: the [saved] object that the
    returned closure keeps, and [process.env] afterwards.  The loop runs
    once for each entry of [merged], which [map_to_list] enumerates. *)
Definition setupEnv (overrides : gmap string (option string))
    (env : gmap string string)
  : gmap string (option string) * gmap string string :=
  foldl setup_step (∅, env) (map_to_list (merged overrides)).

(** The closure that [setupEnv] returns, run in [env]. *)
Definition restore (saved : gmap string (option string)) (env : gmap string string)
  : gmap string string :=
  foldl (fun env entry => assign entry.1 entry.2 env) env (map_to_list saved).

End TestEnv.

(** * Properties *)

(** ** Strings *)

Module StrFacts.

Lemma append_assoc (a b c : string) : (a ++ b) ++ c = a ++ b ++ c.
Proof.
  induction a as [|x a IH]; [reflexivity|].
  change (String x ((a ++ b) ++ c) = String x (a ++ b ++ c)).
  now rewrite IH.
Qed.

Lemma prefix_append (p rest : string) : String.prefix p (p ++ rest) = true.
Proof.
  induction p as [|c p IH].
  - change ("" ++ rest) with rest. now destruct rest.
  - change (String c p ++ rest) with (String c (p ++ rest)). simpl.
    destruct (ascii_dec c c) as [_|ne]; [exact IH | now destruct ne].
Qed.

Lemma prefix_split (p s : string) :
  String.prefix p s = true -> exists rest, s = p ++ rest.
Proof.
  revert s. induction p as [|c p IH]; intros s Hp.
  - now exists s.
  - destruct s as [|d s]; simpl in Hp; [discriminate|].
    destruct (ascii_dec c d) as [->|_]; [|discriminate].
    destruct (IH s Hp) as [rest ->]. now exists rest.
Qed.

Lemma includes_prefix (hay needle : string) :
  String.prefix needle hay = true -> Str.includes hay needle = true.
Proof. intros Hp. destruct hay; cbn [Str.includes]; rewrite Hp; reflexivity. Qed.

Lemma includes_tail (c : ascii) (hay needle : string) :
  Str.includes hay needle = true -> Str.includes (String c hay) needle = true.
Proof. intros Hi. cbn [Str.includes]. rewrite Hi. apply orb_true_r. Qed.

Lemma includes_append (before needle after : string) :
  Str.includes (before ++ needle ++ after) needle = true.
Proof.
  induction before as [|c before IH].
  - change ("" ++ needle ++ after) with (needle ++ after).
    apply includes_prefix, prefix_append.
  - change (String c before ++ needle ++ after)
      with (String c (before ++ needle ++ after)).
    apply includes_tail, IH.
Qed.

(** [includes] decides occurrence as a contiguous run. *)
Lemma includes_spec (hay needle : string) :
  Str.includes hay needle = true <-> Str.occurs_in needle hay.
Proof.
  split.
  - induction hay as [|c hay IH]; cbn [Str.includes]; intros Hi.
    + apply orb_prop in Hi as [Hp|Hf]; [|discriminate].
      destruct (prefix_split _ _ Hp) as [rest ->]. now exists "", rest.
    + apply orb_prop in Hi as [Hp|Hr].
      * destruct (prefix_split _ _ Hp) as [rest Hrest].
        exists "", rest. exact Hrest.
      * destruct (IH Hr) as (before & after & ->).
        now exists (String c before), after.
  - intros (before & after & ->). apply includes_append.
Qed.

(** Occurrence is inherited from a part of the needle. *)
Lemma includes_inner (hay outer inner : string) :
  Str.includes outer inner = true ->
  Str.includes hay outer = true ->
  Str.includes hay inner = true.
Proof.
  rewrite !includes_spec.
  intros (b1 & a1 & ->) (b2 & a2 & ->).
  exists (b2 ++ b1), (a1 ++ a2).
  now rewrite !append_assoc.
Qed.

End StrFacts.

(** ** The configuration check *)

Section GetClientFacts.

Variable sdk : TetherClientConfig -> M TetherClient.
Variable env : gmap string string.

Lemma narrowed_truthy (v : option string) (s : string) :
  narrowed v = Some s -> truthy v = true /\ v = Some s.
Proof. unfold narrowed. destruct (truthy v); [tauto | discriminate]. Qed.

Lemma narrowed_falsy (v : option string) :
  truthy v = false -> narrowed v = None.
Proof. unfold narrowed. now intros ->. Qed.

Lemma truthy_narrowed (v : option string) :
  truthy v = true -> exists s, narrowed v = Some s.
Proof.
  unfold narrowed. intros Ht. rewrite Ht.
  destruct v as [s|]; [now exists s | discriminate Ht].
Qed.

(** The three ways through [getClient]. *)
Lemma getClient_without_credential :
  truthy (env !! "TETHER_CREDENTIAL_ID") = false ->
  run (getClient sdk) env = (Thrown (ErrorObject missing_credential_id), []).
Proof.
  intros Hc. unfold run, getClient, mbind, M_bind, bind, getenv.
  now rewrite (narrowed_falsy _ Hc).
Qed.

Lemma getClient_without_key (cred : string) :
  narrowed (env !! "TETHER_CREDENTIAL_ID") = Some cred ->
  truthy (env !! "TETHER_PRIVATE_KEY_PATH") = false ->
  run (getClient sdk) env = (Thrown (ErrorObject missing_private_key_path), []).
Proof.
  intros Hc Hk. unfold run, getClient, mbind, M_bind, bind, getenv.
  now rewrite Hc, (narrowed_falsy _ Hk).
Qed.

Lemma getClient_configured (cred path : string) :
  narrowed (env !! "TETHER_CREDENTIAL_ID") = Some cred ->
  narrowed (env !! "TETHER_PRIVATE_KEY_PATH") = Some path ->
  run (getClient sdk) env
  = run (invoke (Construct cred path)
           (sdk {| credentialId := cred; privateKeyPath := path |})) env.
Proof.
  intros Hc Hk. unfold run, getClient, mbind, M_bind, bind, getenv.
  rewrite Hc, Hk. cbn. now destruct (invoke _ _ env).
Qed.

(** A throw of [getClient] reaches the [catch] of every delegating
    callback before any other statement of its [try] block runs. *)
Lemma attempt_getClient_throws (op : delegating) (e : thrown) (t : list event) :
  run (getClient sdk) env = (Thrown e, t) ->
  run (attempt sdk op) env = (Thrown e, t).
Proof.
  unfold run. intros Hg.
  destruct op; cbn; unfold verify_identity_try, request_challenge_try,
    sign_challenge_try, submit_proof_try, mbind, M_bind, bind;
    now rewrite Hg.
Qed.

(** [handle] is [attempt] under the callback's [catch]. *)
Lemma handle_unfold (op : delegating) :
  handle sdk op = try_catch (attempt sdk op) (catch_with (prefix_of op)).
Proof. now destruct op. Qed.

Lemma handle_caught (op : delegating) (e : thrown) (t : list event) :
  run (attempt sdk op) env = (Thrown e, t) ->
  run (handle sdk op) env = caught (prefix_of op) e t.
Proof.
  rewrite handle_unfold. unfold run, try_catch, caught. intros ->.
  unfold catch_with, mbind, M_bind, bind, settled.
  destruct (message_of e) as [message|raised]; cbn; now rewrite app_nil_r.
Qed.

Lemma handle_passed (op : delegating) (e : envelope) (t : list event) :
  run (attempt sdk op) env = (Returned e, t) ->
  run (handle sdk op) env = (Returned e, t).
Proof. rewrite handle_unfold. unfold run, try_catch. now intros ->. Qed.

End GetClientFacts.

(** ** Missing configuration *)

(** C10.  When both [TETHER_CREDENTIAL_ID] and [TETHER_PRIVATE_KEY_PATH] are
    unset, every delegating operation answers with the error envelope of
    the credential-ID check: its text is the operation's prefix followed by
    the message about [TETHER_CREDENTIAL_ID], it does not mention
    [TETHER_PRIVATE_KEY_PATH], and nothing of the SDK has been called. *)
Theorem credential_check_comes_first
    (sdk : TetherClientConfig -> M TetherClient)
    (env : gmap string string) (op : delegating) :
  env !! "TETHER_CREDENTIAL_ID" = None ->
  env !! "TETHER_PRIVATE_KEY_PATH" = None ->
  exists e body,
    run (handle sdk op) env = (Returned e, [])
    /\ isError e = Some true
    /\ content e = [ {| type := "text"; text := body |} ]
    /\ body = prefix_of op ++ missing_credential_id
    /\ Str.includes body "TETHER_CREDENTIAL_ID" = true
    /\ Str.includes body "TETHER_PRIVATE_KEY_PATH" = false.
Proof.
  intros Hc _.
  exists (failure (prefix_of op ++ missing_credential_id)),
         (prefix_of op ++ missing_credential_id).
  split.
  - apply (handle_caught sdk env op (ErrorObject missing_credential_id)).
    apply attempt_getClient_throws, getClient_without_credential.
    now rewrite Hc.
  - repeat split; destruct op; reflexivity.
Qed.

Lemma credential_check_comes_first_witness :
  exists e body,
    run (handle Stub.online (SignChallenge "test-challenge")) ∅ = (Returned e, [])
    /\ isError e = Some true
    /\ content e = [ {| type := "text"; text := body |} ]
    /\ body = prefix_of (SignChallenge "test-challenge") ++ missing_credential_id
    /\ Str.includes body "TETHER_CREDENTIAL_ID" = true
    /\ Str.includes body "TETHER_PRIVATE_KEY_PATH" = false.
Proof.
  apply (credential_check_comes_first Stub.online ∅ (SignChallenge "test-challenge"));
    reflexivity.
Defined.

(** C1, as stated, fails where both variables are unset:
    [TETHER_PRIVATE_KEY_PATH] is unset, yet the text of [verify_identity]
    names only the credential ID. *)
Lemma unset_key_path_not_named_when_credential_unset :
  (∅ : gmap string string) !! "TETHER_PRIVATE_KEY_PATH" = None
  /\ run (handle Stub.online VerifyIdentity) ∅
     = (Returned
          (failure
             "Verification failed: TETHER_CREDENTIAL_ID environment variable is required"),
        [])
  /\ Str.includes
       "Verification failed: TETHER_CREDENTIAL_ID environment variable is required"
       "PRIVATE_KEY_PATH" = false.
Proof. repeat split. Qed.

(** C1, amended.  When [TETHER_CREDENTIAL_ID] is unset, each of the four
    delegating operations returns an envelope with [isError: true] whose
    text contains [TETHER_CREDENTIAL_ID]; when [TETHER_PRIVATE_KEY_PATH] is
    unset and [TETHER_CREDENTIAL_ID] holds a non-empty value, each of them
    returns an envelope with [isError: true] whose text contains
    [TETHER_PRIVATE_KEY_PATH]; [get_credential_info] returns an envelope
    without [isError] in every environment. *)
Theorem missing_variable_is_named
    (sdk : TetherClientConfig -> M TetherClient) (env : gmap string string) :
  (forall op,
      env !! "TETHER_CREDENTIAL_ID" = None ->
      exists e body,
        result (handle sdk op) env = Returned e
        /\ isError e = Some true
        /\ first_text e = Some body
        /\ Str.includes body "TETHER_CREDENTIAL_ID" = true
        /\ Str.includes body "CREDENTIAL_ID" = true)
  /\ (forall op,
        env !! "TETHER_PRIVATE_KEY_PATH" = None ->
        truthy (env !! "TETHER_CREDENTIAL_ID") = true ->
        exists e body,
          result (handle sdk op) env = Returned e
          /\ isError e = Some true
          /\ first_text e = Some body
          /\ Str.includes body "TETHER_PRIVATE_KEY_PATH" = true
          /\ Str.includes body "PRIVATE_KEY_PATH" = true)
  /\ (exists e,
        result get_credential_info env = Returned e /\ isError e = None).
Proof.
  split; [|split].
  - intros op Hc.
    exists (failure (prefix_of op ++ missing_credential_id)),
           (prefix_of op ++ missing_credential_id).
    unfold result.
    rewrite (handle_caught sdk env op (ErrorObject missing_credential_id) []).
    + repeat split; destruct op; reflexivity.
    + apply attempt_getClient_throws, getClient_without_credential.
      now rewrite Hc.
  - intros op Hk Hc.
    destruct (truthy_narrowed _ Hc) as [cred Hcred].
    exists (failure (prefix_of op ++ missing_private_key_path)),
           (prefix_of op ++ missing_private_key_path).
    unfold result.
    rewrite (handle_caught sdk env op (ErrorObject missing_private_key_path) []).
    + repeat split; destruct op; reflexivity.
    + apply attempt_getClient_throws, (getClient_without_key sdk env cred Hcred).
      now rewrite Hk.
  - eexists. split; reflexivity.
Qed.

Lemma missing_variable_is_named_witness :
  (exists e body,
      result (handle Stub.online VerifyIdentity)
        {["TETHER_PRIVATE_KEY_PATH" := "/tmp/test-key.der"]} = Returned e
      /\ isError e = Some true
      /\ first_text e = Some body
      /\ Str.includes body "TETHER_CREDENTIAL_ID" = true
      /\ Str.includes body "CREDENTIAL_ID" = true)
  /\ (exists e body,
        result (handle Stub.online VerifyIdentity)
          {["TETHER_CREDENTIAL_ID" := "test-credential-id"]} = Returned e
        /\ isError e = Some true
        /\ first_text e = Some body
        /\ Str.includes body "TETHER_PRIVATE_KEY_PATH" = true
        /\ Str.includes body "PRIVATE_KEY_PATH" = true).
Proof.
  split.
  - apply (missing_variable_is_named Stub.online
             {["TETHER_PRIVATE_KEY_PATH" := "/tmp/test-key.der"]}).
    reflexivity.
  - apply (missing_variable_is_named Stub.online
             {["TETHER_CREDENTIAL_ID" := "test-credential-id"]});
      reflexivity.
Defined.

(** ** [get_credential_info] *)

(** [get_credential_info] reads two variables and nothing else: the value
    of [TETHER_BASE_URL] has no influence on its answer. *)
Lemma get_credential_info_ignores_base_url (env : gmap string string) (url : string) :
  run get_credential_info (<["TETHER_BASE_URL" := url]> env)
  = run get_credential_info env.
Proof.
  unfold run, get_credential_info, mbind, M_bind, bind, getenv.
  now rewrite !lookup_insert_ne.
Qed.

(** The answer of [get_credential_info] never has a [baseUrl] field. *)
Lemma credential_info_has_no_baseUrl (c p : option string) :
  Json.field "baseUrl" (credential_info c p) = None.
Proof. reflexivity. Qed.

(** C2.  With no configuration variable set, [get_credential_info] returns
    a success envelope whose body holds [credentialId: "(not set)"],
    [privateKeyPath: "(not set)"] and [configured: false], and no
    [baseUrl] field: the text is the three-member object written out
    below. *)
Theorem credential_info_without_configuration :
  let body :=
    JObject [ ("credentialId", JString "(not set)");
              ("privateKeyPath", JString "(not set)");
              ("configured", JBool false) ] in
  run get_credential_info ∅ = (Returned (success (Json.stringify body)), [])
  /\ Json.stringify body
     = "{" ++ Str.nl
       ++ "  " ++ Str.quoted "credentialId" ++ ": " ++ Str.quoted "(not set)"
       ++ "," ++ Str.nl
       ++ "  " ++ Str.quoted "privateKeyPath" ++ ": " ++ Str.quoted "(not set)"
       ++ "," ++ Str.nl
       ++ "  " ++ Str.quoted "configured" ++ ": false" ++ Str.nl
       ++ "}"
  /\ Json.field "baseUrl" body = None
  /\ Str.includes (Json.stringify body) "baseUrl" = false
  /\ Str.includes (Json.stringify body) "https://api.tether.name" = false.
Proof. repeat split. Qed.

(** C3.  With [TETHER_CREDENTIAL_ID], [TETHER_PRIVATE_KEY_PATH] and
    [TETHER_BASE_URL] set to ["my-cred-id"], ["/path/to/key.der"] and
    ["https://custom.api.tether.name"], [get_credential_info] returns the
    configured [credentialId] and [privateKeyPath] and [configured: true],
    and no [baseUrl] field: the configured URL appears nowhere in the
    text, whatever it is. *)
Theorem credential_info_with_configuration :
  let body :=
    JObject [ ("credentialId", JString "my-cred-id");
              ("privateKeyPath", JString "/path/to/key.der");
              ("configured", JBool true) ] in
  configured_env !! "TETHER_BASE_URL" = Some "https://custom.api.tether.name"
  /\ run get_credential_info configured_env
     = (Returned (success (Json.stringify body)), [])
  /\ Json.field "credentialId" body = Some (JString "my-cred-id")
  /\ Json.field "privateKeyPath" body = Some (JString "/path/to/key.der")
  /\ Json.field "configured" body = Some (JBool true)
  /\ Json.field "baseUrl" body = None
  /\ Str.includes (Json.stringify body) "custom.api.tether.name" = false
  /\ (forall url,
         run get_credential_info (<["TETHER_BASE_URL" := url]> configured_env)
         = (Returned (success (Json.stringify body)), [])).
Proof.
  intros body.
  do 7 (split; [reflexivity|]).
  intros url. now rewrite get_credential_info_ignores_base_url.
Qed.

(** ** The tool table *)

(** [createServer] does not throw: the five names are distinct. *)
Lemma createServer_returns (sdk : TetherClientConfig -> M TetherClient) :
  createServer sdk
  = Returned
      {| Mcp.server_name := "tether-name-mcp-server";
         Mcp.server_version := "1.0.2";
         Mcp.tools := [ verify_identity_tool sdk; request_challenge_tool sdk;
                        sign_challenge_tool sdk; submit_proof_tool sdk;
                        get_credential_info_tool ] |}.
Proof. reflexivity. Qed.

(** C5.  The server that [createServer] builds lists exactly five tools,
    named [get_credential_info], [request_challenge], [sign_challenge],
    [submit_proof] and [verify_identity]; each has a description, of more
    than ten characters; [sign_challenge] lists [challenge] as required and
    [submit_proof] lists [challenge] and [proof] as required. *)
Theorem five_tools_listed (sdk : TetherClientConfig -> M TetherClient) :
  exists server,
    createServer sdk = Returned server
    /\ map Mcp.listed_name (Mcp.listTools server)
       = [ "verify_identity"; "request_challenge"; "sign_challenge";
           "submit_proof"; "get_credential_info" ]
    /\ map Mcp.listed_name (Mcp.listTools server)
       ≡ₚ [ "get_credential_info"; "request_challenge"; "sign_challenge";
            "submit_proof"; "verify_identity" ]
    /\ Forall (fun t => exists d, Mcp.listed_description t = Some d
                                  /\ 10 < String.length d)
         (Mcp.listTools server)
    /\ Mcp.listed_required
         <$> List.find (fun t => String.eqb (Mcp.listed_name t) "sign_challenge")
               (Mcp.listTools server)
       = Some ["challenge"]
    /\ Mcp.listed_required
         <$> List.find (fun t => String.eqb (Mcp.listed_name t) "submit_proof")
               (Mcp.listTools server)
       = Some ["challenge"; "proof"].
Proof.
  eexists. split; [apply createServer_returns|].
  split; [reflexivity|]. split.
  - cbn [Mcp.listTools Mcp.tools map Mcp.list_entry Mcp.listed_name Mcp.name
           verify_identity_tool request_challenge_tool sign_challenge_tool
           submit_proof_tool get_credential_info_tool].
    transitivity ([ "request_challenge"; "sign_challenge"; "submit_proof";
                    "get_credential_info" ] ++ ["verify_identity"])%list.
    { apply Permutation_cons_append. }
    change [ "get_credential_info"; "request_challenge"; "sign_challenge";
             "submit_proof"; "verify_identity" ]
      with ([ "get_credential_info"; "request_challenge"; "sign_challenge";
              "submit_proof" ] ++ ["verify_identity"])%list.
    apply Permutation_app_tail.
    symmetry.
    apply (Permutation_cons_append
             [ "request_challenge"; "sign_challenge"; "submit_proof" ]
             "get_credential_info").
  - split; [|split; reflexivity].
    repeat constructor; eexists; (split; [reflexivity|]);
      vm_compute; lia.
Qed.

(** ** Every call is answered with an envelope, or rejects *)

Section Envelopes.

Variable sdk : TetherClientConfig -> M TetherClient.


(** What a delegating callback does with the outcome of its [try] block. *)
Lemma handle_outcome (op : delegating) (env : gmap string string) :
  run (handle sdk op) env
  = match run (attempt sdk op) env with
    | (Returned e, t) => (Returned e, t)
    | (Thrown error, t) => caught (prefix_of op) error t
    end.
Proof.
  destruct (run (attempt sdk op) env) as [[e|error] t] eqn:Ha.
  - now apply handle_passed.
  - now apply handle_caught.
Qed.


End Envelopes.




(** ** [sign_challenge] *)

(** With both variables set and a client constructed, [sign_challenge] is
    the SDK's [sign] on the caller's challenge, as received, under the
    callback's [catch]. *)
Lemma sign_challenge_configured
    (sdk : TetherClientConfig -> M TetherClient) (env : gmap string string)
    (cred path challenge : string) (client : TetherClient) (t : list event) :
  narrowed (env !! "TETHER_CREDENTIAL_ID") = Some cred ->
  narrowed (env !! "TETHER_PRIVATE_KEY_PATH") = Some path ->
  run (sdk {| credentialId := cred; privateKeyPath := path |}) env
  = (Returned client, t) ->
  run (sign_challenge sdk challenge) env
  = match run (sign client challenge) env with
    | (Returned proof, t') =>
        (Returned (success (Json.stringify (JObject [("proof", JString proof)]))),
         Invoke (Construct cred path) :: t ++ Invoke (CallSign challenge) :: t')%list
    | (Thrown error, t') =>
        caught "Failed to sign challenge: " error
          (Invoke (Construct cred path) :: t ++ Invoke (CallSign challenge) :: t')%list
    end.
Proof.
  intros Hc Hk Hnew.
  pose proof (getClient_configured sdk env cred path Hc Hk) as Hg.
  unfold run in *.
  unfold sign_challenge, try_catch, sign_challenge_try, mbind, M_bind, bind.
  rewrite Hg. unfold invoke at 1. rewrite Hnew.
  unfold invoke. destruct (sign client challenge env) as [[proof|error] t'].
  - cbn. now rewrite app_nil_r.
  - unfold caught, catch_with, mbind, M_bind, bind, settled.
    destruct (message_of error) as [message|raised]; cbn; now rewrite app_nil_r.
Qed.

(** C6, as stated, fails: the schema of [sign_challenge] accepts the empty
    string, and the callback, far from rejecting it before a signature is
    asked for, calls [client.sign] with it: on a configured server, once
    the SDK has constructed its client, the trace of the call with the
    empty challenge holds that call of [sign], whatever the SDK is. *)
Lemma empty_challenge_is_forwarded :
  (forall sdk,
      Mcp.parse_arguments (Mcp.inputSchema (sign_challenge_tool sdk))
        (JObject [("challenge", JString "")]) = Some ("", tt))
  /\ (forall (sdk : TetherClientConfig -> M TetherClient)
             (env : gmap string string) (cred path : string)
             (client : TetherClient) (t : list event),
         narrowed (env !! "TETHER_CREDENTIAL_ID") = Some cred ->
         narrowed (env !! "TETHER_PRIVATE_KEY_PATH") = Some path ->
         run (sdk {| credentialId := cred; privateKeyPath := path |}) env
         = (Returned client, t) ->
         In (Invoke (CallSign "")) (run (sign_challenge sdk "") env).2)
  /\ ~ (forall (sdk : TetherClientConfig -> M TetherClient)
               (env : gmap string string) (cred path : string),
          narrowed (env !! "TETHER_CREDENTIAL_ID") = Some cred ->
          narrowed (env !! "TETHER_PRIVATE_KEY_PATH") = Some path ->
          ~ In (Invoke (CallSign "")) (run (sign_challenge sdk "") env).2).
Proof.
  assert (forall (sdk : TetherClientConfig -> M TetherClient)
                 (env : gmap string string) (cred path : string)
                 (client : TetherClient) (t : list event),
             narrowed (env !! "TETHER_CREDENTIAL_ID") = Some cred ->
             narrowed (env !! "TETHER_PRIVATE_KEY_PATH") = Some path ->
             run (sdk {| credentialId := cred; privateKeyPath := path |}) env
             = (Returned client, t) ->
             In (Invoke (CallSign "")) (run (sign_challenge sdk "") env).2)
    as Hforwarded.
  { intros sdk env cred path client t Hc Hk Hnew.
    rewrite (sign_challenge_configured sdk env cred path "" client t Hc Hk Hnew).
    assert (forall t', In (Invoke (CallSign ""))
                         (Invoke (Construct cred path)
                            :: t ++ Invoke (CallSign "") :: t')%list) as Hin.
    { intros t'. right. apply in_or_app. right. now left. }
    destruct (run (sign client "") env) as [[proof|error] t']; [apply Hin|].
    unfold caught. destruct (message_of error); apply Hin. }
  split; [reflexivity|]. split; [exact Hforwarded|].
  intros Hrejected.
  apply (Hrejected Stub.online configured_env "my-cred-id" "/path/to/key.der");
    [reflexivity | reflexivity |].
  apply (Hforwarded Stub.online configured_env "my-cred-id" "/path/to/key.der"
           Stub.answering []);
    reflexivity.
Qed.

(** C6, amended.  With valid configuration, [sign_challenge] called with
    the empty string is not rejected by the shell: the input schema accepts
    the empty string and the callback hands it unchanged to [sign] of the
    client that the SDK constructed.  When [sign] returns, the answer is the
    success envelope with the proof; when [sign] throws an [Error] with a
    message, or a value that converts to a string, it is the envelope with
    [isError: true] and the text [Failed to sign challenge: ] followed by
    that message; when it throws a value with no conversion to a string,
    the callback rejects with what the conversion threw. *)
Theorem empty_challenge_reaches_sign
    (sdk : TetherClientConfig -> M TetherClient) (env : gmap string string)
    (cred path : string) (client : TetherClient) (t : list event) :
  narrowed (env !! "TETHER_CREDENTIAL_ID") = Some cred ->
  narrowed (env !! "TETHER_PRIVATE_KEY_PATH") = Some path ->
  run (sdk {| credentialId := cred; privateKeyPath := path |}) env
  = (Returned client, t) ->
  Mcp.parse_arguments (Mcp.inputSchema (sign_challenge_tool sdk))
    (JObject [("challenge", JString "")]) = Some ("", tt)
  /\ Mcp.callback (sign_challenge_tool sdk) ("", tt) = sign_challenge sdk ""
  /\ run (sign_challenge sdk "") env
     = match run (sign client "") env with
       | (Returned proof, t') =>
           (Returned
              {| content :=
                   [ {| type := "text";
                        text := Json.stringify (JObject [("proof", JString proof)]) |} ];
                 isError := None |},
            Invoke (Construct cred path) :: t ++ Invoke (CallSign "") :: t')%list
       | (Thrown (ErrorObject message), t')
       | (Thrown (OtherValue message), t') =>
           (Returned
              {| content :=
                   [ {| type := "text";
                        text := "Failed to sign challenge: " ++ message |} ];
                 isError := Some true |},
            Invoke (Construct cred path) :: t ++ Invoke (CallSign "") :: t')%list
       | (Thrown (Inconvertible raised), t') =>
           (Thrown raised,
            Invoke (Construct cred path) :: t ++ Invoke (CallSign "") :: t')%list
       end.
Proof.
  intros Hc Hk Hnew.
  split; [reflexivity|]. split; [reflexivity|].
  rewrite (sign_challenge_configured sdk env cred path "" client t Hc Hk Hnew).
  now destruct (run (sign client "") env) as [[proof|[message|message|raised]] t'].
Qed.

Lemma empty_challenge_reaches_sign_witness :
  Mcp.parse_arguments
    (Mcp.inputSchema (sign_challenge_tool (Stub.offline (OtherValue "no key"))))
    (JObject [("challenge", JString "")]) = Some ("", tt)
  /\ Mcp.callback (sign_challenge_tool (Stub.offline (OtherValue "no key"))) ("", tt)
     = sign_challenge (Stub.offline (OtherValue "no key")) ""
  /\ run (sign_challenge (Stub.offline (OtherValue "no key")) "") configured_env
     = (Returned
          {| content :=
               [ {| type := "text"; text := "Failed to sign challenge: no key" |} ];
             isError := Some true |},
        [ Invoke (Construct "my-cred-id" "/path/to/key.der"); Invoke (CallSign "") ]).
Proof.
  apply (empty_challenge_reaches_sign (Stub.offline (OtherValue "no key"))
           configured_env "my-cred-id" "/path/to/key.der"
           (Stub.failing (OtherValue "no key")) []);
    reflexivity.
Defined.

(** ** [verify_identity] over the verification core *)

Section Orchestration.

Variable PrivateKey : Type.
Variable read_key : string -> outcome PrivateKey.
Variable rsa_sign : PrivateKey -> string -> outcome string.
Variable fetch_challenge : Sdk.CredentialConfig -> outcome string.
Variable post_proof : Sdk.CredentialConfig -> string -> string -> outcome json.

Local Abbreviation core_verify :=
  (Sdk.verify PrivateKey read_key rsa_sign fetch_challenge post_proof).
Local Abbreviation core_sdk :=
  (Sdk.new_TetherClient PrivateKey read_key rsa_sign fetch_challenge post_proof).




End Orchestration.



(** ** Empty values *)

Section EmptyValues.

Variable sdk : TetherClientConfig -> M TetherClient.
Variable env : gmap string string.

Lemma handle_without_credential (op : delegating) (e : gmap string string) :
  truthy (e !! "TETHER_CREDENTIAL_ID") = false ->
  run (handle sdk op) e
  = (Returned (failure (prefix_of op ++ missing_credential_id)), []).
Proof.
  intros Hc.
  apply (handle_caught sdk e op (ErrorObject missing_credential_id)).
  now apply attempt_getClient_throws, getClient_without_credential.
Qed.

Lemma handle_without_key (op : delegating) (e : gmap string string) :
  truthy (e !! "TETHER_CREDENTIAL_ID") = true ->
  truthy (e !! "TETHER_PRIVATE_KEY_PATH") = false ->
  run (handle sdk op) e
  = (Returned (failure (prefix_of op ++ missing_private_key_path)), []).
Proof.
  intros Hc Hk. destruct (truthy_narrowed _ Hc) as [cred Hcred].
  apply (handle_caught sdk e op (ErrorObject missing_private_key_path)).
  now apply attempt_getClient_throws, (getClient_without_key sdk e cred).
Qed.

Lemma empty_credential_as_unset (op : delegating) :
  env !! "TETHER_CREDENTIAL_ID" = Some "" ->
  run (handle sdk op) env = run (handle sdk op) (delete "TETHER_CREDENTIAL_ID" env).
Proof.
  intros He. rewrite !handle_without_credential; [reflexivity | |].
  - now rewrite lookup_delete_eq.
  - now rewrite He.
Qed.

Lemma empty_key_as_unset (op : delegating) :
  env !! "TETHER_PRIVATE_KEY_PATH" = Some "" ->
  run (handle sdk op) env
  = run (handle sdk op) (delete "TETHER_PRIVATE_KEY_PATH" env).
Proof.
  intros He.
  assert (delete "TETHER_PRIVATE_KEY_PATH" env !! "TETHER_CREDENTIAL_ID"
          = env !! "TETHER_CREDENTIAL_ID") as Hsame
    by now apply lookup_delete_ne.
  destruct (truthy (env !! "TETHER_CREDENTIAL_ID")) eqn:Hc.
  - rewrite !handle_without_key; [reflexivity | | | |].
    + now rewrite Hsame.
    + now rewrite lookup_delete_eq.
    + exact Hc.
    + now rewrite He.
  - rewrite !handle_without_credential; [reflexivity | |].
    + now rewrite Hsame.
    + exact Hc.
Qed.

Lemma get_credential_info_run (e : gmap string string) :
  run get_credential_info e
  = (Returned
       (success
          (Json.stringify
             (credential_info (e !! "TETHER_CREDENTIAL_ID")
                (e !! "TETHER_PRIVATE_KEY_PATH")))),
     []).
Proof. reflexivity. Qed.

Lemma credential_info_empty_credential (p : option string) :
  credential_info (Some "") p = credential_info None p.
Proof. reflexivity. Qed.

Lemma credential_info_empty_key (c : option string) :
  credential_info c (Some "") = credential_info c None.
Proof.
  unfold credential_info, and_then.
  destruct c as [[|x c]|]; reflexivity.
Qed.

End EmptyValues.

(** C9, as stated, fails where [TETHER_PRIVATE_KEY_PATH] is the empty
    string and [TETHER_CREDENTIAL_ID] is missing: the envelope is the one
    for the credential ID, not the one for the key path. *)
Lemma empty_key_path_not_named_when_credential_unset :
  ({["TETHER_PRIVATE_KEY_PATH" := ""]} : gmap string string)
    !! "TETHER_PRIVATE_KEY_PATH" = Some ""
  /\ run (handle Stub.online RequestChallenge) {["TETHER_PRIVATE_KEY_PATH" := ""]}
     = (Returned
          (failure
             "Failed to request challenge: TETHER_CREDENTIAL_ID environment variable is required"),
        [])
  /\ Str.includes
       "Failed to request challenge: TETHER_CREDENTIAL_ID environment variable is required"
       "TETHER_PRIVATE_KEY_PATH" = false.
Proof. repeat split. Qed.

(** C9, amended.  A required variable set to the empty string is treated
    exactly like an unset one: every operation answers as it does with the
    variable deleted.  With [TETHER_CREDENTIAL_ID] empty, the four
    delegating operations return the error envelope for
    [TETHER_CREDENTIAL_ID]; with [TETHER_PRIVATE_KEY_PATH] empty and
    [TETHER_CREDENTIAL_ID] non-empty, they return the error envelope for
    [TETHER_PRIVATE_KEY_PATH]; and [get_credential_info] reports
    ["(not set)"] for the empty field and [configured: false]. *)
Theorem empty_value_is_unset
    (sdk : TetherClientConfig -> M TetherClient) (env : gmap string string) :
  (env !! "TETHER_CREDENTIAL_ID" = Some "" ->
   (forall op,
       run (handle sdk op) env
       = run (handle sdk op) (delete "TETHER_CREDENTIAL_ID" env))
   /\ (forall op,
         run (handle sdk op) env
         = (Returned (failure (prefix_of op ++ missing_credential_id)), []))
   /\ run get_credential_info env
      = run get_credential_info (delete "TETHER_CREDENTIAL_ID" env)
   /\ exists body,
        run get_credential_info env = (Returned (success (Json.stringify body)), [])
        /\ Json.field "credentialId" body = Some (JString "(not set)")
        /\ Json.field "configured" body = Some (JBool false))
  /\ (env !! "TETHER_PRIVATE_KEY_PATH" = Some "" ->
      (forall op,
          run (handle sdk op) env
          = run (handle sdk op) (delete "TETHER_PRIVATE_KEY_PATH" env))
      /\ (truthy (env !! "TETHER_CREDENTIAL_ID") = true ->
          forall op,
            run (handle sdk op) env
            = (Returned (failure (prefix_of op ++ missing_private_key_path)), []))
      /\ run get_credential_info env
         = run get_credential_info (delete "TETHER_PRIVATE_KEY_PATH" env)
      /\ exists body,
           run get_credential_info env
           = (Returned (success (Json.stringify body)), [])
           /\ Json.field "privateKeyPath" body = Some (JString "(not set)")
           /\ Json.field "configured" body = Some (JBool false)).
Proof.
  split; intros He.
  - split; [intros op; now apply empty_credential_as_unset|].
    split; [intros op; apply handle_without_credential; now rewrite He|].
    split.
    + rewrite !get_credential_info_run, lookup_delete_eq, lookup_delete_ne by done.
      now rewrite He, credential_info_empty_credential.
    + rewrite get_credential_info_run, He. eexists. split; [reflexivity|].
      split; reflexivity.
  - split; [intros op; now apply empty_key_as_unset|].
    split; [intros Hc op; apply handle_without_key; [exact Hc | now rewrite He]|].
    split.
    + rewrite !get_credential_info_run, lookup_delete_eq, lookup_delete_ne by done.
      now rewrite He, credential_info_empty_key.
    + rewrite get_credential_info_run, He, credential_info_empty_key.
      eexists. split; [reflexivity|].
      split; [reflexivity|].
      unfold credential_info, and_then.
      now destruct (env !! "TETHER_CREDENTIAL_ID") as [[|x c]|].
Qed.

Lemma empty_value_is_unset_witness :
  (forall op,
      run (handle Stub.online op)
        (<["TETHER_CREDENTIAL_ID" := ""]> configured_env)
      = (Returned (failure (prefix_of op ++ missing_credential_id)), []))
  /\ (forall op,
         run (handle Stub.online op)
           (<["TETHER_PRIVATE_KEY_PATH" := ""]> configured_env)
         = (Returned (failure (prefix_of op ++ missing_private_key_path)), [])).
Proof.
  split.
  - apply (empty_value_is_unset Stub.online
             (<["TETHER_CREDENTIAL_ID" := ""]> configured_env)).
    reflexivity.
  - apply (empty_value_is_unset Stub.online
             (<["TETHER_PRIVATE_KEY_PATH" := ""]> configured_env));
      reflexivity.
Defined.


(** ** The environment fixture *)

Module TestEnvFacts.

Import TestEnv.

Lemma assign_lookup (key : string) (val : option string)
    (env : gmap string string) (k : string) :
  assign key val env !! k = if decide (key = k) then val else env !! k.
Proof.
  unfold assign. destruct val as [v|]; case_decide; subst.
  - apply lookup_insert_eq.
  - now apply lookup_insert_ne.
  - apply lookup_delete_eq.
  - now apply lookup_delete_ne.
Qed.

(** The loop of [setupEnv] over entries with distinct keys: afterwards a
    listed key holds the listed value and [saved] holds what the key had
    before; other keys are as they were. *)
Lemma setup_fold (entries : list (string * option string)) :
  NoDup entries.*1 ->
  forall (saved : gmap string (option string)) (env : gmap string string)
         (k : string),
    (foldl setup_step (saved, env) entries).2 !! k
    = match (list_to_map entries : gmap string (option string)) !! k with
      | Some val => val
      | None => env !! k
      end
    /\ (foldl setup_step (saved, env) entries).1 !! k
       = match (list_to_map entries : gmap string (option string)) !! k with
         | Some _ => Some (env !! k)
         | None => saved !! k
         end.
Proof.
  induction entries as [|[key val] entries IH]; intros Hnd saved env k.
  - cbn. now rewrite !lookup_empty.
  - apply NoDup_cons in Hnd as [Hfresh Hnd].
    cbn [foldl]. unfold setup_step at 2 4. cbn [fst snd].
    destruct (IH Hnd (<[key := env !! key]> saved) (assign key val env) k)
      as [Henv Hsaved].
    rewrite Henv, Hsaved. cbn [list_to_map foldr uncurry fst snd].
    destruct (decide (key = k)) as [->|Hne].
    + rewrite (not_elem_of_list_to_map_1 _ _ Hfresh).
      rewrite !lookup_insert_eq, assign_lookup.
      now rewrite decide_True.
    + rewrite (lookup_insert_ne _ key k) by done.
      rewrite assign_lookup, decide_False by done.
      destruct (list_to_map entries !! k);
        [now split | now rewrite lookup_insert_ne].
Qed.

(** The loop of the restoring closure. *)
Lemma restore_fold (entries : list (string * option string)) :
  NoDup entries.*1 ->
  forall (env : gmap string string) (k : string),
    foldl (fun env entry => assign entry.1 entry.2 env) env entries !! k
    = match (list_to_map entries : gmap string (option string)) !! k with
      | Some val => val
      | None => env !! k
      end.
Proof.
  induction entries as [|[key val] entries IH]; intros Hnd env k.
  - cbn. now rewrite lookup_empty.
  - apply NoDup_cons in Hnd as [Hfresh Hnd].
    cbn [foldl fst snd]. rewrite (IH Hnd).
    cbn [list_to_map foldr uncurry fst snd].
    destruct (decide (key = k)) as [->|Hne].
    + rewrite (not_elem_of_list_to_map_1 _ _ Hfresh), lookup_insert_eq.
      rewrite assign_lookup. now rewrite decide_True.
    + rewrite (lookup_insert_ne _ key k) by done.
      destruct (list_to_map entries !! k); [reflexivity|].
      rewrite assign_lookup. now rewrite decide_False.
Qed.

Lemma setupEnv_env (overrides : gmap string (option string))
    (env : gmap string string) (k : string) :
  (setupEnv overrides env).2 !! k
  = match merged overrides !! k with
    | Some val => val
    | None => env !! k
    end.
Proof.
  unfold setupEnv.
  destruct (setup_fold (map_to_list (merged overrides))
              (NoDup_fst_map_to_list _) ∅ env k) as [-> _].
  now rewrite list_to_map_to_list.
Qed.

Lemma setupEnv_saved (overrides : gmap string (option string))
    (env : gmap string string) (k : string) :
  (setupEnv overrides env).1 !! k
  = match merged overrides !! k with
    | Some _ => Some (env !! k)
    | None => None
    end.
Proof.
  unfold setupEnv.
  destruct (setup_fold (map_to_list (merged overrides))
              (NoDup_fst_map_to_list _) ∅ env k) as [_ ->].
  rewrite list_to_map_to_list.
  destruct (merged overrides !! k); [reflexivity | apply lookup_empty].
Qed.

Lemma restore_lookup (saved : gmap string (option string))
    (env : gmap string string) (k : string) :
  restore saved env !! k
  = match saved !! k with
    | Some val => val
    | None => env !! k
    end.
Proof.
  unfold restore.
  rewrite (restore_fold _ (NoDup_fst_map_to_list _)).
  now rewrite list_to_map_to_list.
Qed.

(** What [merged] holds for a key: the override if there is one, also an
    [undefined] one, and else the default. *)
Lemma merged_lookup (overrides : gmap string (option string)) (k : string) :
  merged overrides !! k
  = match overrides !! k with
    | Some val => Some val
    | None => Some <$> defaults !! k
    end.
Proof.
  unfold merged. rewrite lookup_union, lookup_fmap.
  destruct (overrides !! k) as [val|]; [|now rewrite (left_id_L None _)].
  now destruct (Some <$> defaults !! k).
Qed.

Lemma setupEnv_value (overrides : gmap string (option string))
    (env : gmap string string) (k : string) :
  (setupEnv overrides env).2 !! k
  = match overrides !! k with
    | Some val => val
    | None =>
        match defaults !! k with
        | Some default => Some default
        | None => env !! k
        end
    end.
Proof.
  rewrite setupEnv_env, merged_lookup.
  destruct (overrides !! k) as [val|]; [reflexivity|].
  now destruct (defaults !! k).
Qed.

End TestEnvFacts.

(** ** The paths through a delegating operation *)

(** A [catch] block that returns an envelope has converted what it caught. *)
Lemma caught_returned (prefix : string) (error : thrown) (t t' : list event)
    (e : envelope) :
  caught prefix error t = (Returned e, t') ->
  exists message,
    message_of error = Returned message
    /\ e = failure (prefix ++ message)
    /\ t' = t.
Proof.
  unfold caught. destruct (message_of error) as [message|raised];
    intros [= <- <-]. now exists message.
Qed.

Section Paths.

Variable sdk : TetherClientConfig -> M TetherClient.

(** A delegating operation is [getClient], then one call of the SDK, each
    under the operation's [catch]. *)
Lemma handle_run (op : delegating) (env : gmap string string) :
  run (handle sdk op) env
  = match run (getClient sdk) env with
    | (Thrown error, t) => caught (prefix_of op) error t
    | (Returned client, t) =>
        match run (answer_of op client) env with
        | (Returned body, t') =>
            (Returned (success body), (t ++ Invoke (call_of op) :: t')%list)
        | (Thrown error, t') =>
            caught (prefix_of op) error (t ++ Invoke (call_of op) :: t')%list
        end
    end.
Proof.
  rewrite handle_outcome. unfold run.
  destruct op; cbn [attempt answer_of call_of prefix_of];
    unfold verify_identity_try, request_challenge_try, sign_challenge_try,
      submit_proof_try, mbind, M_bind, bind, invoke, mret, M_ret, ret;
    destruct (getClient sdk env) as [[client|error] t]; try reflexivity.
  - destruct (verify client env) as [[v|error] t']; cbn;
      now rewrite ?app_nil_r.
  - destruct (requestChallenge client env) as [[v|error] t']; cbn;
      now rewrite ?app_nil_r.
  - destruct (sign client challenge env) as [[v|error] t']; cbn;
      now rewrite ?app_nil_r.
  - destruct (submitProof client challenge proof env) as [[v|error] t']; cbn;
      now rewrite ?app_nil_r.
Qed.

(** The three ways through [getClient], as one case analysis. *)
Lemma getClient_cases (env : gmap string string) :
  (truthy (env !! "TETHER_CREDENTIAL_ID") = false
   /\ run (getClient sdk) env = (Thrown (ErrorObject missing_credential_id), []))
  \/ (truthy (env !! "TETHER_CREDENTIAL_ID") = true
      /\ truthy (env !! "TETHER_PRIVATE_KEY_PATH") = false
      /\ run (getClient sdk) env
         = (Thrown (ErrorObject missing_private_key_path), []))
  \/ (exists cred path,
         narrowed (env !! "TETHER_CREDENTIAL_ID") = Some cred
         /\ narrowed (env !! "TETHER_PRIVATE_KEY_PATH") = Some path
         /\ run (getClient sdk) env
            = run (invoke (Construct cred path)
                     (sdk {| credentialId := cred; privateKeyPath := path |})) env).
Proof.
  destruct (truthy (env !! "TETHER_CREDENTIAL_ID")) eqn:Hc.
  - destruct (truthy_narrowed _ Hc) as [cred Hcred].
    destruct (truthy (env !! "TETHER_PRIVATE_KEY_PATH")) eqn:Hk.
    + destruct (truthy_narrowed _ Hk) as [path Hpath].
      right. right. exists cred, path.
      split; [exact Hcred|]. split; [exact Hpath|].
      now apply getClient_configured.
    + right. left. split; [reflexivity|]. split; [reflexivity|].
      now apply (getClient_without_key sdk env cred).
  - left. split; [reflexivity|]. now apply getClient_without_credential.
Qed.

End Paths.

(** X1.  After [setupEnv(overrides)], a variable named in [overrides] holds
    the override, and is unset when the override is [undefined]; a variable
    not named there that has a default holds the default; every other
    variable is as it was. *)
Theorem setupEnv_environment (overrides : gmap string (option string))
    (env : gmap string string) (k : string) :
  (TestEnv.setupEnv overrides env).2 !! k
  = match overrides !! k with
    | Some val => val
    | None =>
        match TestEnv.defaults !! k with
        | Some default => Some default
        | None => env !! k
        end
    end.
Proof.
  rewrite TestEnvFacts.setupEnv_env, TestEnvFacts.merged_lookup.
  destruct (overrides !! k) as [val|]; [reflexivity|].
  now destruct (TestEnv.defaults !! k).
Qed.

(** X2.  The closure returned by [setupEnv] undoes it: run right after the
    set-up it gives back the environment as it was before; run in any later
    environment it puts every variable that the set-up wrote or deleted
    back to its value from before the set-up, and leaves the others as
    they are then. *)
Theorem restore_undoes_setupEnv (overrides : gmap string (option string))
    (env : gmap string string) :
  TestEnv.restore (TestEnv.setupEnv overrides env).1
    (TestEnv.setupEnv overrides env).2 = env
  /\ forall (later : gmap string string) (k : string),
       TestEnv.restore (TestEnv.setupEnv overrides env).1 later !! k
       = match TestEnv.merged overrides !! k with
         | Some _ => env !! k
         | None => later !! k
         end.
Proof.
  assert (forall later k,
             TestEnv.restore (TestEnv.setupEnv overrides env).1 later !! k
             = match TestEnv.merged overrides !! k with
               | Some _ => env !! k
               | None => later !! k
               end) as Hlater.
  { intros later k.
    rewrite TestEnvFacts.restore_lookup, TestEnvFacts.setupEnv_saved.
    now destruct (TestEnv.merged overrides !! k). }
  split; [|exact Hlater].
  apply map_eq. intros k. rewrite Hlater, TestEnvFacts.setupEnv_env.
  now destruct (TestEnv.merged overrides !! k).
Qed.

(** X3.  The fixture decides the configuration check whatever the ambient
    environment holds: with [TETHER_CREDENTIAL_ID] overridden to
    [undefined] every delegating operation answers with the error for the
    credential ID; with only [TETHER_PRIVATE_KEY_PATH] overridden to
    [undefined] it answers with the error for the key path, the default
    credential ID being in place; with neither variable overridden
    [getClient] constructs the client from the two default values. *)
Theorem fixture_decides_configuration
    (sdk : TetherClientConfig -> M TetherClient)
    (overrides : gmap string (option string)) (env : gmap string string) :
  (overrides !! "TETHER_CREDENTIAL_ID" = Some None ->
   forall op,
     run (handle sdk op) (TestEnv.setupEnv overrides env).2
     = (Returned (failure (prefix_of op ++ missing_credential_id)), []))
  /\ (overrides !! "TETHER_CREDENTIAL_ID" = None ->
      overrides !! "TETHER_PRIVATE_KEY_PATH" = Some None ->
      forall op,
        run (handle sdk op) (TestEnv.setupEnv overrides env).2
        = (Returned (failure (prefix_of op ++ missing_private_key_path)), []))
  /\ (overrides !! "TETHER_CREDENTIAL_ID" = None ->
      overrides !! "TETHER_PRIVATE_KEY_PATH" = None ->
      run (getClient sdk) (TestEnv.setupEnv overrides env).2
      = run (invoke (Construct "test-credential-id" "/tmp/test-key.der")
               (sdk {| credentialId := "test-credential-id";
                       privateKeyPath := "/tmp/test-key.der" |}))
          (TestEnv.setupEnv overrides env).2).
Proof.
  split; [|split].
  - intros Hc op. apply handle_without_credential.
    now rewrite TestEnvFacts.setupEnv_value, Hc.
  - intros Hc Hk op. apply handle_without_key.
    + now rewrite TestEnvFacts.setupEnv_value, Hc.
    + now rewrite TestEnvFacts.setupEnv_value, Hk.
  - intros Hc Hk. apply getClient_configured.
    + now rewrite TestEnvFacts.setupEnv_value, Hc.
    + now rewrite TestEnvFacts.setupEnv_value, Hk.
Qed.

Lemma fixture_decides_configuration_witness :
  (forall op,
      run (handle Stub.online op)
        (TestEnv.setupEnv {["TETHER_CREDENTIAL_ID" := None]} configured_env).2
      = (Returned (failure (prefix_of op ++ missing_credential_id)), []))
  /\ (forall op,
         run (handle Stub.online op)
           (TestEnv.setupEnv {["TETHER_PRIVATE_KEY_PATH" := None]} configured_env).2
         = (Returned (failure (prefix_of op ++ missing_private_key_path)), []))
  /\ run (getClient Stub.online) (TestEnv.setupEnv ∅ configured_env).2
     = run (invoke (Construct "test-credential-id" "/tmp/test-key.der")
              (Stub.online {| credentialId := "test-credential-id";
                              privateKeyPath := "/tmp/test-key.der" |}))
         (TestEnv.setupEnv ∅ configured_env).2.
Proof.
  split; [|split].
  - apply (fixture_decides_configuration Stub.online
             {["TETHER_CREDENTIAL_ID" := None]} configured_env).
    reflexivity.
  - apply (fixture_decides_configuration Stub.online
             {["TETHER_PRIVATE_KEY_PATH" := None]} configured_env);
      reflexivity.
  - apply (fixture_decides_configuration Stub.online ∅ configured_env);
      reflexivity.
Defined.

(** X4.  A delegating operation answers without [isError] only when both
    variables hold non-empty values, the SDK's constructor returned a
    client for exactly those two values, and the operation's one call on
    that client returned: the text is then the JSON text of what the call
    returned, and the trace is the constructor followed by that call. *)
Theorem success_comes_from_the_sdk
    (sdk : TetherClientConfig -> M TetherClient) (env : gmap string string)
    (op : delegating) (e : envelope) (t : list event) :
  run (handle sdk op) env = (Returned e, t) ->
  isError e = None ->
  exists cred path client t0 body t1,
    narrowed (env !! "TETHER_CREDENTIAL_ID") = Some cred
    /\ narrowed (env !! "TETHER_PRIVATE_KEY_PATH") = Some path
    /\ run (sdk {| credentialId := cred; privateKeyPath := path |}) env
       = (Returned client, t0)
    /\ run (answer_of op client) env = (Returned body, t1)
    /\ e = success body
    /\ t = (Invoke (Construct cred path) :: t0 ++ Invoke (call_of op) :: t1)%list.
Proof.
  rewrite handle_run.
  destruct (getClient_cases sdk env)
    as [(_ & ->)|[(_ & _ & ->)|(cred & path & Hc & Hk & ->)]].
  - intros [= <- _]. discriminate.
  - intros [= <- _]. discriminate.
  - unfold run at 1, invoke.
    destruct (sdk _ env) as [[client|error] t0] eqn:Hnew.
    + destruct (run (answer_of op client) env) as [[body|error] t1] eqn:Ha.
      * intros [= <- <-] _. exists cred, path, client, t0, body, t1.
        repeat split; assumption.
      * intros (message & _ & -> & _)%caught_returned. discriminate.
    + intros (message & _ & -> & _)%caught_returned. discriminate.
Qed.

Lemma success_comes_from_the_sdk_witness :
  exists cred path client t0 body t1,
    narrowed (configured_env !! "TETHER_CREDENTIAL_ID") = Some cred
    /\ narrowed (configured_env !! "TETHER_PRIVATE_KEY_PATH") = Some path
    /\ run (Stub.online {| credentialId := cred; privateKeyPath := path |})
         configured_env
       = (Returned client, t0)
    /\ run (answer_of RequestChallenge client) configured_env = (Returned body, t1)
    /\ success (Json.stringify (JObject [("challenge", JString "challenge-1")]))
       = success body
    /\ [ Invoke (Construct "my-cred-id" "/path/to/key.der");
         Invoke CallRequestChallenge ]
       = (Invoke (Construct cred path)
            :: t0 ++ Invoke (call_of RequestChallenge) :: t1)%list.
Proof.
  apply (success_comes_from_the_sdk Stub.online configured_env RequestChallenge
           (success (Json.stringify (JObject [("challenge", JString "challenge-1")])))
           [ Invoke (Construct "my-cred-id" "/path/to/key.der");
             Invoke CallRequestChallenge ]);
    reflexivity.
Defined.

(** X5.  An envelope with [isError: true] from a delegating operation has
    as text the operation's prefix followed by the message of one thrown
    value, and that value is one of four: the missing-credential error of
    [getClient], with nothing called; its missing-key-path error, with
    nothing called; what the SDK's constructor threw, with no method
    called; or what the operation's call on the constructed client
    threw. *)
Theorem error_envelope_causes
    (sdk : TetherClientConfig -> M TetherClient) (env : gmap string string)
    (op : delegating) (e : envelope) (t : list event) :
  run (handle sdk op) env = (Returned e, t) ->
  isError e = Some true ->
  exists error message,
    message_of error = Returned message
    /\ e = failure (prefix_of op ++ message)
    /\ ((truthy (env !! "TETHER_CREDENTIAL_ID") = false
         /\ error = ErrorObject missing_credential_id
         /\ t = [])
        \/ (truthy (env !! "TETHER_CREDENTIAL_ID") = true
            /\ truthy (env !! "TETHER_PRIVATE_KEY_PATH") = false
            /\ error = ErrorObject missing_private_key_path
            /\ t = [])
        \/ exists cred path,
             narrowed (env !! "TETHER_CREDENTIAL_ID") = Some cred
             /\ narrowed (env !! "TETHER_PRIVATE_KEY_PATH") = Some path
             /\ ((exists t0,
                     run (sdk {| credentialId := cred; privateKeyPath := path |}) env
                     = (Thrown error, t0)
                     /\ t = Invoke (Construct cred path) :: t0)
                 \/ exists client t0 t1,
                      run (sdk {| credentialId := cred; privateKeyPath := path |}) env
                      = (Returned client, t0)
                      /\ run (answer_of op client) env = (Thrown error, t1)
                      /\ t = (Invoke (Construct cred path)
                                :: t0 ++ Invoke (call_of op) :: t1)%list)).
Proof.
  rewrite handle_run.
  destruct (getClient_cases sdk env)
    as [(Hc & ->)|[(Hc & Hk & ->)|(cred & path & Hc & Hk & ->)]].
  - intros [= <- <-] _.
    exists (ErrorObject missing_credential_id), missing_credential_id.
    split; [reflexivity|]. split; [reflexivity|]. left. now repeat split.
  - intros [= <- <-] _.
    exists (ErrorObject missing_private_key_path), missing_private_key_path.
    split; [reflexivity|]. split; [reflexivity|]. right. left. now repeat split.
  - unfold run at 1, invoke.
    destruct (sdk _ env) as [[client|error] t0] eqn:Hnew.
    + destruct (run (answer_of op client) env) as [[body|error] t1] eqn:Ha.
      * intros [= <- _]. discriminate.
      * intros (message & Hm & -> & ->)%caught_returned _.
        exists error, message. split; [exact Hm|]. split; [reflexivity|].
        right. right. exists cred, path. split; [exact Hc|]. split; [exact Hk|].
        right. exists client, t0, t1. now repeat split.
    + intros (message & Hm & -> & ->)%caught_returned _.
      exists error, message. split; [exact Hm|]. split; [reflexivity|].
      right. right. exists cred, path. split; [exact Hc|]. split; [exact Hk|].
      left. exists t0. now split.
Qed.

Lemma error_envelope_causes_witness :
  exists error message,
    message_of error = Returned message
    /\ failure "Failed to submit proof: key file not found"
       = failure (prefix_of (SubmitProof "c" "p") ++ message)
    /\ ((truthy (configured_env !! "TETHER_CREDENTIAL_ID") = false
         /\ error = ErrorObject missing_credential_id
         /\ [Invoke (Construct "my-cred-id" "/path/to/key.der")] = [])
        \/ (truthy (configured_env !! "TETHER_CREDENTIAL_ID") = true
            /\ truthy (configured_env !! "TETHER_PRIVATE_KEY_PATH") = false
            /\ error = ErrorObject missing_private_key_path
            /\ [Invoke (Construct "my-cred-id" "/path/to/key.der")] = [])
        \/ exists cred path,
             narrowed (configured_env !! "TETHER_CREDENTIAL_ID") = Some cred
             /\ narrowed (configured_env !! "TETHER_PRIVATE_KEY_PATH") = Some path
             /\ ((exists t0,
                     run (Stub.broken {| credentialId := cred;
                                         privateKeyPath := path |}) configured_env
                     = (Thrown error, t0)
                     /\ [Invoke (Construct "my-cred-id" "/path/to/key.der")]
                        = Invoke (Construct cred path) :: t0)
                 \/ exists client t0 t1,
                      run (Stub.broken {| credentialId := cred;
                                          privateKeyPath := path |}) configured_env
                      = (Returned client, t0)
                      /\ run (answer_of (SubmitProof "c" "p") client) configured_env
                         = (Thrown error, t1)
                      /\ [Invoke (Construct "my-cred-id" "/path/to/key.der")]
                         = (Invoke (Construct cred path)
                              :: t0 ++ Invoke (call_of (SubmitProof "c" "p")) :: t1)%list)).
Proof.
  apply (error_envelope_causes Stub.broken configured_env (SubmitProof "c" "p")
           (failure "Failed to submit proof: key file not found")
           [Invoke (Construct "my-cred-id" "/path/to/key.der")]);
    reflexivity.
Defined.

(** ** What the environment decides *)

Lemma truthy_value (v : option string) :
  truthy v = true -> narrowed v = Some (or_else v "(not set)").
Proof. unfold narrowed. destruct v as [[|c s]|]; now intros. Qed.

Lemma truthy_and_then (a b : option string) :
  truthy (and_then a b) = truthy a && truthy b.
Proof. unfold and_then. now destruct (truthy a) eqn:Ha. Qed.

(** X6.  The [configured] flag of [get_credential_info] tells what
    [getClient] does in the same environment.  When it is [true], the
    [credentialId] and [privateKeyPath] shown are the two values with
    which [getClient] calls the SDK's constructor; when it is [false],
    every delegating operation answers with one of the two
    missing-variable errors and calls nothing. *)
Theorem configured_flag_matches_getClient
    (sdk : TetherClientConfig -> M TetherClient) (env : gmap string string) :
  exists (c p : string) (b : bool),
    run get_credential_info env
    = (Returned
         (success
            (Json.stringify
               (JObject [ ("credentialId", JString c);
                          ("privateKeyPath", JString p);
                          ("configured", JBool b) ]))),
       [])
    /\ if b
       then run (getClient sdk) env
            = run (invoke (Construct c p)
                     (sdk {| credentialId := c; privateKeyPath := p |})) env
       else forall op,
           exists message,
             (message = missing_credential_id
              \/ message = missing_private_key_path)
             /\ run (handle sdk op) env
                = (Returned (failure (prefix_of op ++ message)), []).
Proof.
  exists (or_else (env !! "TETHER_CREDENTIAL_ID") "(not set)"),
         (or_else (env !! "TETHER_PRIVATE_KEY_PATH") "(not set)"),
         (truthy (and_then (env !! "TETHER_CREDENTIAL_ID")
                    (env !! "TETHER_PRIVATE_KEY_PATH"))).
  split; [apply get_credential_info_run|].
  rewrite truthy_and_then.
  destruct (truthy (env !! "TETHER_CREDENTIAL_ID")) eqn:Hc; cbn [andb].
  - destruct (truthy (env !! "TETHER_PRIVATE_KEY_PATH")) eqn:Hk.
    + apply getClient_configured; now apply truthy_value.
    + intros op. exists missing_private_key_path.
      split; [now right | now apply handle_without_key].
  - intros op. exists missing_credential_id.
    split; [now left | now apply handle_without_credential].
Qed.

Section Independence.

Variable sdk : TetherClientConfig -> M TetherClient.
Hypothesis sdk_blind : sdk_ignores_env sdk.

Variables env1 env2 : gmap string string.
Hypothesis same_credential :
  env1 !! "TETHER_CREDENTIAL_ID" = env2 !! "TETHER_CREDENTIAL_ID".
Hypothesis same_key_path :
  env1 !! "TETHER_PRIVATE_KEY_PATH" = env2 !! "TETHER_PRIVATE_KEY_PATH".

Lemma getClient_same : run (getClient sdk) env1 = run (getClient sdk) env2.
Proof.
  destruct (getClient_cases sdk env1)
    as [(Hc & ->)|[(Hc & Hk & ->)|(cred & path & Hc & Hk & ->)]].
  - symmetry. apply getClient_without_credential. now rewrite <- same_credential.
  - destruct (truthy_narrowed _ Hc) as [cred Hcred].
    symmetry. apply (getClient_without_key sdk env2 cred).
    + now rewrite <- same_credential.
    + now rewrite <- same_key_path.
  - rewrite (getClient_configured sdk env2 cred path).
    + pose proof (proj1 sdk_blind {| credentialId := cred; privateKeyPath := path |}
                    env1 env2) as Hnew.
      unfold run in *. unfold invoke. now rewrite Hnew.
    + now rewrite <- same_credential.
    + now rewrite <- same_key_path.
Qed.

Lemma answer_same (op : delegating) (client : TetherClient) (t : list event) :
  run (getClient sdk) env1 = (Returned client, t) ->
  run (answer_of op client) env1 = run (answer_of op client) env2.
Proof.
  intros Hg.
  assert (exists config t0, run (sdk config) env1 = (Returned client, t0))
    as (config & t0 & Hnew).
  { destruct (getClient_cases sdk env1)
      as [(_ & He)|[(_ & _ & He)|(cred & path & _ & _ & He)]];
      rewrite He in Hg; try discriminate.
    unfold run, invoke in Hg.
    destruct (sdk _ env1) as [r t0] eqn:Hnew.
    injection Hg as -> _.
    exists {| credentialId := cred; privateKeyPath := path |}, t0. exact Hnew. }
  destruct (proj2 sdk_blind config env1 client t0 Hnew)
    as (Hv & Hr & Hs & Hp).
  unfold ignores_env, run in *.
  destruct op; cbn [answer_of]; unfold mbind, M_bind, bind.
  - now rewrite (Hv env1 env2).
  - now rewrite (Hr env1 env2).
  - now rewrite (Hs challenge env1 env2).
  - now rewrite (Hp challenge proof env1 env2).
Qed.

Lemma handle_same (op : delegating) :
  run (handle sdk op) env1 = run (handle sdk op) env2.
Proof.
  rewrite !handle_run, <- getClient_same.
  destruct (run (getClient sdk) env1) as [[client|error] t] eqn:Hg;
    [|reflexivity].
  now rewrite (answer_same op client t Hg).
Qed.

End Independence.

(** X7.  The shell reads nothing but [TETHER_CREDENTIAL_ID] and
    [TETHER_PRIVATE_KEY_PATH]: over an SDK that does not itself look at
    the environment, two environments that agree on these two variables
    give the same answer and the same trace for every operation, so a
    change of [TETHER_BASE_URL], or of any other variable, changes
    nothing. *)
Theorem only_two_variables_matter
    (sdk : TetherClientConfig -> M TetherClient)
    (env1 env2 : gmap string string) :
  sdk_ignores_env sdk ->
  env1 !! "TETHER_CREDENTIAL_ID" = env2 !! "TETHER_CREDENTIAL_ID" ->
  env1 !! "TETHER_PRIVATE_KEY_PATH" = env2 !! "TETHER_PRIVATE_KEY_PATH" ->
  (forall op, run (handle sdk op) env1 = run (handle sdk op) env2)
  /\ run get_credential_info env1 = run get_credential_info env2.
Proof.
  intros Hblind Hc Hk. split.
  - intros op. now apply handle_same.
  - now rewrite !get_credential_info_run, Hc, Hk.
Qed.

Lemma only_two_variables_matter_witness :
  (forall op,
      run (handle Stub.online op) configured_env
      = run (handle Stub.online op)
          (<["TETHER_BASE_URL" := "https://api.tether.name"]>
             (<["HOME" := "/root"]> configured_env)))
  /\ run get_credential_info configured_env
     = run get_credential_info
         (<["TETHER_BASE_URL" := "https://api.tether.name"]>
            (<["HOME" := "/root"]> configured_env)).
Proof.
  apply (only_two_variables_matter Stub.online configured_env
           (<["TETHER_BASE_URL" := "https://api.tether.name"]>
              (<["HOME" := "/root"]> configured_env))).
  - split.
    + intros config env1 env2. reflexivity.
    + intros config env client t [= <- _]. repeat split.
  - reflexivity.
  - reflexivity.
Defined.
